(** * Verification of the compile-lock daemon ([src/daemon/redis.ts])

    The module talks to a Redis store, to the redlock mutex primitive, to the
    wall clock and to the timer queue of the runtime.  Every such call is an
    _event_ answered by the environment; the asynchronous functions of the
    module are trees of events (a free monad with exceptions, where a rejected
    promise is [Throw]).  A run threads an arbitrary environment, given as a
    state machine, through the tree and records the trace of calls with their
    replies, so that a statement quantified over the environment speaks about
    every behaviour of the store, of the clock and of the other processes.

    Conventions:
    - numbers are integers ([Z]); [Number.POSITIVE_INFINITY] and NaN are
      explicit ([JS.ext], [None]);
    - [while (true)] is unrolled a given number of times ([whileTrue]); a
      call that is still in the loop after that many passes yields [None];
    - the closures of the module ([setInterval] callback, release function)
      are programs themselves. *)

From Stdlib Require Import ZArith String Ascii List Bool Lia DecimalString.
From Stdlib Require DecimalZ.
From ExtLib Require Import Structures.Monad Structures.MonadExc.
Import ListNotations.
Import MonadNotation.
Local Open Scope monad_scope.
Local Open Scope string_scope.
Local Open Scope list_scope.
Local Open Scope Z_scope.

Set Implicit Arguments.

(** ** JavaScript values used by the module *)

Module JS.

(** Characters are UTF-16 code units below 256; these are the members of
    StrWhiteSpaceChar in that range (TAB, LF, VT, FF, CR, SP, NBSP). *)
Definition isWhiteSpace (c : ascii) : bool :=
  let n := nat_of_ascii c in
  ((9 <=? n) && (n <=? 13) || (n =? 32) || (n =? 160))%nat.

Fixpoint trimStart (s : string) : string :=
  match s with
  | String c s' => if isWhiteSpace c then trimStart s' else s
  | EmptyString => EmptyString
  end.

Definition digitValue (c : ascii) : option Z :=
  let n := nat_of_ascii c in
  if ((48 <=? n) && (n <=? 57))%nat then Some (Z.of_nat n - 48) else None.

(** Value of the longest prefix of decimal digits, read after [acc];
    [seen] tells whether a digit was already consumed. *)
Fixpoint digits (s : string) (seen : bool) (acc : Z) : option Z :=
  match s with
  | String c s' =>
      match digitValue c with
      | Some d => digits s' true (10 * acc + d)
      | None => if seen then Some acc else None
      end
  | EmptyString => if seen then Some acc else None
  end.

(** [parseInt(s, 10)]: [None] is NaN.  Numbers are mathematical integers,
    which is what a double holds below 2^53; [-0] is [0]. *)
Definition parseInt (s : string) : option Z :=
  match trimStart s with
  | String "-" s' => option_map Z.opp (digits s' false 0)
  | String "+" s' => digits s' false 0
  | s' => digits s' false 0
  end.

(** [String(n)] for an integer [n] (plain decimal notation, as for every
    value of [Date.now()]). *)
Definition String_ (n : Z) : string := NilZero.string_of_int (Z.to_int n).

(** Truthiness of [string | null]. *)
Definition truthyString (v : option string) : bool :=
  match v with
  | Some (String _ _) => true
  | _ => false
  end.

(** Truthiness of a number, NaN being [None]. *)
Definition truthyNumber (v : option Z) : bool :=
  match v with
  | Some n => negb (n =? 0)
  | None => false
  end.

(** A number that may be [Number.POSITIVE_INFINITY]. *)
Inductive ext : Type :=
| Fin (n : Z)
| PosInf.

Definition gt (a : ext) (b : Z) : bool :=
  match a with
  | Fin n => b <? n
  | PosInf => true
  end.

End JS.

Arguments JS.parseInt : simpl never.
Arguments JS.String_ : simpl never.

(** ** Programs: trees of events *)

Definition Err := string.

Inductive Prog (E : Type -> Type) (R : Type) : Type :=
| Ret (r : R)
| Throw (e : Err)
| Vis (X : Type) (ev : E X) (k : X -> Prog E R).

Arguments Ret {E R} r.
Arguments Throw {E R} e.
Arguments Vis {E R X} ev k.

Fixpoint pbind {E A B} (p : Prog E A) (f : A -> Prog E B) : Prog E B :=
  match p with
  | Ret a => f a
  | Throw e => Throw e
  | Vis ev k => Vis ev (fun x => pbind (k x) f)
  end.

(** [try { p } catch (e) { handler e }] *)
Fixpoint try_catch {E A} (p : Prog E A) (handler : Err -> Prog E A) : Prog E A :=
  match p with
  | Ret a => Ret a
  | Throw e => handler e
  | Vis ev k => Vis ev (fun x => try_catch (k x) handler)
  end.

#[global] Instance Monad_Prog {E} : Monad (Prog E) :=
  { ret := fun _ a => Ret a; bind := fun _ _ p f => pbind p f }.

#[global] Instance MonadExc_Prog {E} : MonadExc Err (Prog E) :=
  { raise := fun _ e => Throw e; catch := fun _ p h => try_catch p h }.

(** A call whose promise cannot reject. *)
Definition trigger {E X} (ev : E X) : Prog E X := Vis ev (fun x => Ret x).

(** [await] of a call whose promise may reject. *)
Definition await {E X} (ev : E (Err + X)%type) : Prog E X :=
  Vis ev (fun r => match r with inl e => Throw e | inr x => Ret x end).

(** Completion of a block of statements. *)
Inductive Completion (V : Type) : Type :=
| Normal
| Break
| Return (v : V).

Arguments Normal {V}.
Arguments Break {V}.
Arguments Return {V} v.

(** ** The events of the module *)

Definition LockHandle := nat.
Definition Token := nat.

Inductive StoreE : Type -> Type :=
| DateNow : StoreE Z
| ExistsAsync (key : string) : StoreE (Err + Z)%type
| PttlAsync (key : string) : StoreE (Err + Z)%type
| GetAsync (key : string) : StoreE (Err + option string)%type
| SetAsync (key value : string) : StoreE (Err + unit)%type
| PexpireAsync (key : string) (ms : Z) : StoreE (Err + unit)%type
| DelAsync (key : string) : StoreE (Err + unit)%type
| RedlockLock (resource : string) (ttl : Z) : StoreE (Err + LockHandle)%type
| LockExtend (lock : LockHandle) (ttl : Z) : StoreE (Err + unit)%type
| LockUnlock (lock : LockHandle) : StoreE (Err + unit)%type
| Delay (ms : Z) : StoreE unit.

(** The callback of [setInterval] is itself a program over the store. *)
Inductive Ev : Type -> Type :=
| Store (X : Type) (ev : StoreE X) : Ev X
| SetInterval (callback : Prog StoreE unit) (ms : Z) : Ev Token
| ClearInterval (token : Token) : Ev unit.

Arguments Store {X} ev.

(** ** The module *)

Section Existence.

(** [redisMetadataSuffix] is imported from [../interfaces]. *)
Variable redisMetadataSuffix : string.

(** [!!(await redisClient.existsAsync(name + redisMetadataSuffix))] *)
Definition checkBinaryExistance (name : string) : Prog Ev bool :=
  n <- await (Store (ExistsAsync (name ++ redisMetadataSuffix)%string)) ;;
  ret (negb (n =? 0)).

End Existence.

Definition lockTTL : Z := 5000.
Definition maxWaitMs : Z := 15000.

(** [Math.floor(lockTTL * 0.7)]: the double nearest to 0.7 is below 0.7 by
    less than 5e-17, so the product rounds to the double 3500. *)
Definition heartbeatPeriod : Z := lockTTL * 7 / 10.

Definition forceResetLockIfStale (resource heartbeatKey : string) : Prog Ev bool :=
  c <- catch
         (ttl <- await (Store (PttlAsync resource)) ;;
          if ttl =? -2 then ret (Return true) else
          rawTs <- await (Store (GetAsync heartbeatKey)) ;;
          let hbTs :=
            if JS.truthyString rawTs
            then JS.parseInt (match rawTs with Some s => s | None => "" end)
            else Some 0 in
          hbAge <- (if JS.truthyNumber hbTs
                    then now <- trigger (Store DateNow) ;;
                         ret (JS.Fin (now - match hbTs with Some n => n | None => 0 end))
                    else ret JS.PosInf) ;;
          if (ttl =? -1) || JS.gt hbAge (lockTTL * 2) then
            await (Store (DelAsync resource)) ;;
            await (Store (DelAsync heartbeatKey)) ;;
            ret (Return true)
          else ret Normal)
         (fun _ => ret Normal) ;;
  match c with
  | Return b => ret b
  | _ => ret false
  end.

(** The callback given to [setInterval]. *)
Definition heartbeatTick (lock : LockHandle) (heartbeatKey : string) : Prog StoreE unit :=
  catch
    (await (LockExtend lock lockTTL) ;;
     now <- trigger DateNow ;;
     await (SetAsync heartbeatKey (JS.String_ now)) ;;
     await (PexpireAsync heartbeatKey (lockTTL * 2)))
    (fun _ => ret tt).

(** The closure returned after a successful acquisition. *)
Definition releaseFunction (token : Token) (lock : LockHandle) (heartbeatKey : string)
  : Prog Ev unit :=
  trigger (ClearInterval token) ;;
  catch (await (Store (LockUnlock lock))) (fun _ => ret tt) ;;
  catch (await (Store (DelAsync heartbeatKey))) (fun _ => ret tt).

(** [async () => {}] *)
Definition noopRelease : Prog Ev unit := ret tt.

(** The [try] block of the loop body. *)
Definition tryAcquire (resource heartbeatKey : string)
  : Prog Ev (Completion (Prog Ev unit)) :=
  lock <- await (Store (RedlockLock resource lockTTL)) ;;
  now <- trigger (Store DateNow) ;;
  await (Store (SetAsync heartbeatKey (JS.String_ now))) ;;
  await (Store (PexpireAsync heartbeatKey (lockTTL * 2))) ;;
  token <- trigger (SetInterval (heartbeatTick lock heartbeatKey) heartbeatPeriod) ;;
  ret (Return (releaseFunction token lock heartbeatKey)).

(** The [catch] block of the loop body. *)
Definition onFailure (resource heartbeatKey : string) (start : Z)
  : Prog Ev (Completion (Prog Ev unit)) :=
  now <- trigger (Store DateNow) ;;
  c <- (if maxWaitMs <=? now - start then
          reset <- forceResetLockIfStale resource heartbeatKey ;;
          if negb reset then ret Break else ret Normal
        else ret Normal) ;;
  match c with
  | Normal => trigger (Store (Delay 200)) ;; ret Normal
  | _ => ret c
  end.

(** One pass through the body of [while (true)]. *)
Definition loopBody (resource heartbeatKey : string) (start : Z)
  : Prog Ev (Completion (Prog Ev unit)) :=
  catch (tryAcquire resource heartbeatKey)
        (fun _ => onFailure resource heartbeatKey start).

(** The loop, unrolled [fuel] times; [None] when the loop is still running
    after [fuel] passes. *)
Fixpoint whileTrue (fuel : nat) (resource heartbeatKey : string) (start : Z)
  : Prog Ev (option (Prog Ev unit)) :=
  match fuel with
  | O => ret None
  | S fuel' =>
      c <- loopBody resource heartbeatKey start ;;
      match c with
      | Return f => ret (Some f)
      | Break => ret (Some noopRelease)
      | Normal => whileTrue fuel' resource heartbeatKey start
      end
  end.

Definition getCompileLock (fuel : nat) (name : string) : Prog Ev (option (Prog Ev unit)) :=
  let resource := ("compile-" ++ name)%string in
  let heartbeatKey := (resource ++ ":hb")%string in
  start <- trigger (Store DateNow) ;;
  whileTrue fuel resource heartbeatKey start.


(** ** Runs against an environment *)

(** A call together with the reply it got. *)
Inductive Obs (E : Type -> Type) : Type :=
| Observe (X : Type) (ev : E X) (reply : X).

Arguments Observe {E X} ev reply.

(** How an asynchronous function ends: its promise resolves or rejects. *)
Inductive Outcome (R : Type) : Type :=
| Returned (r : R)
| Thrown (e : Err).

Arguments Returned {R} r.
Arguments Thrown {R} e.

Record Run (E : Type -> Type) (W R : Type) : Type :=
  mkRun { trace : list (Obs E); outcome : Outcome R; final : W }.

Arguments mkRun {E W R} trace outcome final.

Section Running.

Variables (E : Type -> Type) (W : Type).

(** The environment: a state machine answering each call. *)
Variable handle : forall X, E X -> W -> X * W.

Fixpoint run {R} (p : Prog E R) (s : W) : Run E W R :=
  match p with
  | Ret r => mkRun [] (Returned r) s
  | Throw e => mkRun [] (Thrown e) s
  | Vis ev k =>
      let (x, s') := handle ev s in
      let r := run (k x) s' in
      mkRun (Observe ev x :: trace r) (outcome r) (final r)
  end.

(** Running [p] and then its continuation or its handler. *)
Definition andThen {A B} (r : Run E W A) (onReturn : A -> W -> Run E W B)
           (onThrow : Err -> W -> Run E W B) : Run E W B :=
  let r' := match outcome r with
            | Returned a => onReturn a (final r)
            | Thrown e => onThrow e (final r)
            end in
  mkRun (trace r ++ trace r') (outcome r') (final r').

End Running.

Arguments run {E W} handle {R} p s.
Arguments andThen {E W A B} r onReturn onThrow.

(** The store events seen through the events of the module. *)
Definition storeOnly {W} (handle : forall X, Ev X -> W -> X * W)
  : forall X, StoreE X -> W -> X * W :=
  fun X ev => handle X (Store ev).

(** *** Reading traces *)

Definition rejected {X} (r : (Err + X)%type) : bool :=
  match r with inl _ => true | inr _ => false end.

(** The call was answered by a rejection. *)
Definition storeFailed {X} (ev : StoreE X) : X -> bool :=
  match ev in StoreE X return X -> bool with
  | DateNow => fun _ => false
  | ExistsAsync _ => rejected
  | PttlAsync _ => rejected
  | GetAsync _ => rejected
  | SetAsync _ _ => rejected
  | PexpireAsync _ _ => rejected
  | DelAsync _ => rejected
  | RedlockLock _ _ => rejected
  | LockExtend _ _ => rejected
  | LockUnlock _ => rejected
  | Delay _ => fun _ => false
  end.

Definition failed (o : Obs Ev) : bool :=
  match o with
  | Observe ev reply =>
      match ev in Ev X return X -> bool with
      | Store ev' => storeFailed ev'
      | SetInterval _ _ => fun _ => false
      | ClearInterval _ => fun _ => false
      end reply
  end.

(** The call of an observation, without its reply. *)
Inductive Call : Type :=
| CNow
| CExists (key : string)
| CPttl (key : string)
| CGet (key : string)
| CSet (key value : string)
| CPexpire (key : string) (ms : Z)
| CDel (key : string)
| CLock (resource : string) (ttl : Z)
| CExtend (lock : LockHandle) (ttl : Z)
| CUnlock (lock : LockHandle)
| CDelay (ms : Z)
| CSetInterval (ms : Z)
| CClearInterval (token : Token).

Definition storeCall {X} (ev : StoreE X) : Call :=
  match ev with
  | DateNow => CNow
  | ExistsAsync k => CExists k
  | PttlAsync k => CPttl k
  | GetAsync k => CGet k
  | SetAsync k v => CSet k v
  | PexpireAsync k ms => CPexpire k ms
  | DelAsync k => CDel k
  | RedlockLock r ttl => CLock r ttl
  | LockExtend l ttl => CExtend l ttl
  | LockUnlock l => CUnlock l
  | Delay ms => CDelay ms
  end.

Definition callOf (o : Obs Ev) : Call :=
  match o with
  | Observe ev _ =>
      match ev with
      | Store ev' => storeCall ev'
      | SetInterval _ ms => CSetInterval ms
      | ClearInterval t => CClearInterval t
      end
  end.

Definition calls (tr : list (Obs Ev)) : list Call := map callOf tr.

Definition tickCalls (tr : list (Obs StoreE)) : list Call :=
  map (fun o => match o with Observe ev _ => storeCall ev end) tr.

Definition isDel (c : Call) : bool :=
  match c with CDel _ => true | _ => false end.

Definition isPttl (c : Call) : bool :=
  match c with CPttl _ => true | _ => false end.

(** Calls that change the store or the lock. *)
Definition isMutation (c : Call) : bool :=
  match c with
  | CSet _ _ | CPexpire _ _ | CDel _ | CLock _ _ | CExtend _ _ | CUnlock _ => true
  | _ => false
  end.

(** Keys deleted along a trace, in order. *)
Definition deleted (tr : list (Obs Ev)) : list string :=
  flat_map (fun c => match c with CDel k => [k] | _ => [] end) (calls tr).

(** Number of Stale-Lock Detector passes: the detector alone queries the
    remaining lease, once per pass. *)
Definition detectorPasses (tr : list (Obs Ev)) : nat :=
  length (filter isPttl (calls tr)).

(** Replies found in a trace. *)
Definition firstSome {A} (f : Obs Ev -> option A) (tr : list (Obs Ev)) : option A :=
  fold_right (fun o rest => match f o with Some a => Some a | None => rest end) None tr.

Definition pttlReply (o : Obs Ev) : option Z :=
  match o with
  | Observe ev reply =>
      match ev in Ev X return X -> option Z with
      | Store ev' =>
          match ev' in StoreE X return X -> option Z with
          | PttlAsync _ => fun r => match r with inr n => Some n | inl _ => None end
          | _ => fun _ => None
          end
      | _ => fun _ => None
      end reply
  end.


Definition nowReply (o : Obs Ev) : option Z :=
  match o with
  | Observe ev reply =>
      match ev in Ev X return X -> option Z with
      | Store ev' =>
          match ev' in StoreE X return X -> option Z with
          | DateNow => fun n => Some n
          | _ => fun _ => None
          end
      | _ => fun _ => None
      end reply
  end.

(** What the remaining-lease query reported, the value read under the
    Heartbeat Key, and the clock reading of a detector pass. *)
Definition leaseReported : list (Obs Ev) -> option Z := firstSome pttlReply.
Definition clockRead : list (Obs Ev) -> option Z := firstSome nowReply.

(** A query of the detector was answered by a rejection. *)
Definition queryFailed (o : Obs Ev) : bool :=
  failed o && match callOf o with CPttl _ | CGet _ => true | _ => false end.

(** *** A scripted environment

    The state is the list of replies still to be given; a reply of the wrong
    shape, or the end of the script, is a rejection (or a zero). *)

Inductive Reply : Type :=
| Rejects (e : Err)
| Number (n : Z)
| Text (v : option string)
| Ok.

Definition asNumber (r : option Reply) : (Err + Z)%type :=
  match r with
  | Some (Number n) => inr n
  | Some (Rejects e) => inl e
  | _ => inl "script"
  end.

Definition asText (r : option Reply) : (Err + option string)%type :=
  match r with
  | Some (Text v) => inr v
  | Some (Rejects e) => inl e
  | _ => inl "script"
  end.

Definition asOk (r : option Reply) : (Err + unit)%type :=
  match r with
  | Some Ok => inr tt
  | Some (Rejects e) => inl e
  | _ => inl "script"
  end.

Definition asHandle (r : option Reply) : (Err + nat)%type :=
  match r with
  | Some (Number n) => inr (Z.to_nat n)
  | Some (Rejects e) => inl e
  | _ => inl "script"
  end.

Definition asPlain (r : option Reply) : Z :=
  match r with
  | Some (Number n) => n
  | _ => 0
  end.

Definition storeAnswer {X} (ev : StoreE X) : option Reply -> X :=
  match ev in StoreE X return option Reply -> X with
  | DateNow => asPlain
  | ExistsAsync _ => asNumber
  | PttlAsync _ => asNumber
  | GetAsync _ => asText
  | SetAsync _ _ => asOk
  | PexpireAsync _ _ => asOk
  | DelAsync _ => asOk
  | RedlockLock _ _ => asHandle
  | LockExtend _ _ => asOk
  | LockUnlock _ => asOk
  | Delay _ => fun _ => tt
  end.

Definition scripted : forall X, Ev X -> list Reply -> X * list Reply :=
  fun X ev script =>
    (match ev in Ev X return option Reply -> X with
     | Store ev' => storeAnswer ev'
     | SetInterval _ _ => fun r => Z.to_nat (asPlain r)
     | ClearInterval _ => fun _ => tt
     end (hd_error script), tl script).

(** Timers registered and not yet cleared along a trace. *)
Definition timerStep (active : list Token) (o : Obs Ev) : list Token :=
  match o with
  | Observe ev reply =>
      match ev in Ev X return X -> list Token with
      | Store _ => fun _ => active
      | SetInterval _ _ => fun t => t :: active
      | ClearInterval t => fun _ => remove Nat.eq_dec t active
      end reply
  end.

Definition activeTimers (tr : list (Obs Ev)) : list Token :=
  fold_left timerStep tr [].



(** A tick of the heartbeat got a rejection. *)
Definition tickFailed (o : Obs StoreE) : bool :=
  match o with
  | Observe ev reply => storeFailed ev reply
  end.

(** *** Two environments with a clock

    The state of the first is the wall clock, which only [Delay] advances.
    The server is a read-only replica holding no key: reads are answered,
    while writes, and so every attempt to take the lock, are rejected. *)

Definition readOnlyReplica : forall X, Ev X -> Z -> X * Z :=
  fun X ev clock =>
    match ev in Ev X return X * Z with
    | Store ev' =>
        match ev' in StoreE X return X * Z with
        | DateNow => (clock, clock)
        | ExistsAsync _ => (inr 0, clock)
        | PttlAsync _ => (inr (-2), clock)
        | GetAsync _ => (inr None, clock)
        | SetAsync _ _ => (inl "READONLY", clock)
        | PexpireAsync _ _ => (inl "READONLY", clock)
        | DelAsync _ => (inl "READONLY", clock)
        | RedlockLock _ _ => (inl "READONLY", clock)
        | LockExtend _ _ => (inl "READONLY", clock)
        | LockUnlock _ => (inl "READONLY", clock)
        | Delay ms => (tt, clock + Z.max 0 ms)
        end
    | SetInterval _ _ => (O, clock)
    | ClearInterval _ => (tt, clock)
    end.

(** An environment that grants a bounded number of reclamations: the state
    is the clock and the number of times the remaining-lease query still
    reports the resource key absent (as when another holder, writing no
    heartbeat, lets its lease lapse); after that the store is unreachable.
    The lock is never obtained. *)
Definition lapsing : forall X, Ev X -> Z * nat -> X * (Z * nat) :=
  fun X ev '(clock, grants) =>
    match ev in Ev X return X * (Z * nat) with
    | Store ev' =>
        match ev' in StoreE X return X * (Z * nat) with
        | DateNow => (clock, (clock, grants))
        | PttlAsync _ =>
            match grants with
            | O => (inl "ECONNREFUSED", (clock, O))
            | S grants' => (inr (-2), (clock, grants'))
            end
        | ExistsAsync _ => (inl "ECONNREFUSED", (clock, grants))
        | GetAsync _ => (inl "ECONNREFUSED", (clock, grants))
        | SetAsync _ _ => (inl "ECONNREFUSED", (clock, grants))
        | PexpireAsync _ _ => (inl "ECONNREFUSED", (clock, grants))
        | DelAsync _ => (inl "ECONNREFUSED", (clock, grants))
        | RedlockLock _ _ => (inl "ECONNREFUSED", (clock, grants))
        | LockExtend _ _ => (inl "ECONNREFUSED", (clock, grants))
        | LockUnlock _ => (inl "ECONNREFUSED", (clock, grants))
        | Delay ms => (tt, (clock + Z.max 0 ms, grants))
        end
    | SetInterval _ _ => (O, (clock, grants))
    | ClearInterval _ => (tt, (clock, grants))
    end.

(** The calls of a successful pass through the [try] block of the loop. *)
Definition acquired (resource heartbeatKey : string)
           (lock : LockHandle) (now : Z) (token : Token) : list (Obs Ev) :=
  [ Observe (Store (RedlockLock resource lockTTL)) (inr lock);
    Observe (Store DateNow) now;
    Observe (Store (SetAsync heartbeatKey (JS.String_ now))) (inr tt);
    Observe (Store (PexpireAsync heartbeatKey (2 * lockTTL))) (inr tt);
    Observe (SetInterval (heartbeatTick lock heartbeatKey) heartbeatPeriod) token ].

(** The calls of a heartbeat tick in which nothing is rejected. *)
Definition fullTick (lock : LockHandle) (heartbeatKey : string) (now : Z) : list Call :=
  [ CExtend lock lockTTL; CNow; CSet heartbeatKey (JS.String_ now);
    CPexpire heartbeatKey (2 * lockTTL) ].

(** ** Proof automation *)

(** One step of a run: name the reply of the outermost pending call. *)
Ltac answer h :=
  match goal with
  | |- context [h ?X ?ev ?s] =>
      let x := fresh "x" in
      let s' := fresh "s" in
      let Hx := fresh "Hx" in
      destruct (h X ev s) as [x s'] eqn:Hx; cbn
  end.

Ltac split_reply :=
  match goal with
  | |- context [match ?x with inl _ => _ | inr _ => _ end] => destruct x; cbn
  end.

(** Every branch of a detector pass, up to the replies of the store. *)
Ltac detector_cases h :=
  unfold forceResetLockIfStale; cbn;
  answer h; split_reply;
  [ | match goal with
      | |- context [?z =? -2] => destruct (Z.eqb_spec z (-2)); cbn
      end;
      [ | answer h; split_reply;
          [ | match goal with
              | |- context [JS.truthyNumber ?v] =>
                  destruct (JS.truthyNumber v) eqn:Hts; cbn
              end;
              [ answer h | ];
              match goal with
              | |- context [if ?b then _ else _] => destruct b eqn:Hstale; cbn
              end;
              [ answer h; split_reply; [ | answer h; split_reply ] |
              | answer h; split_reply; [ | answer h; split_reply ] | ] ] ] ].

(** ** Further readings of traces *)

(** The calls [getCompileLock] can make on the keys [resource] and
    [heartbeatKey]. *)
Definition confined (resource heartbeatKey : string) (c : Call) : bool :=
  match c with
  | CNow => true
  | CLock r ttl => String.eqb r resource && (ttl =? lockTTL)
  | CSet k _ => String.eqb k heartbeatKey
  | CPexpire k ms => String.eqb k heartbeatKey && (ms =? 2 * lockTTL)
  | CSetInterval ms => ms =? heartbeatPeriod
  | CPttl k => String.eqb k resource
  | CGet k => String.eqb k heartbeatKey
  | CDel k => String.eqb k resource || String.eqb k heartbeatKey
  | CDelay ms => ms =? 200
  | CExists _ | CExtend _ _ | CUnlock _ | CClearInterval _ => false
  end.

Definition isLock (c : Call) : bool :=
  match c with CLock _ _ => true | _ => false end.

Definition isDelay (c : Call) : bool :=
  match c with CDelay _ => true | _ => false end.

(** Attempts to take the lock, and sleeps, along a trace. *)
Definition attempts (tr : list (Obs Ev)) : nat := length (filter isLock (calls tr)).
Definition delays (tr : list (Obs Ev)) : nat := length (filter isDelay (calls tr)).

(** The clock reading, if [o] is one, is before the maximum wait counted
    from [start]. *)
Definition early (start : Z) (o : Obs Ev) : bool :=
  match nowReply o with
  | Some t => t - start <? maxWaitMs
  | None => true
  end.

(** Keys whose deletion the store carried out, in order. *)
Definition removed (tr : list (Obs Ev)) : list string :=
  flat_map (fun o => if failed o then []
                     else match callOf o with CDel k => [k] | _ => [] end) tr.

(** The remaining-lease query was answered "key absent" (line 29). *)
Definition absentLease (o : Obs Ev) : bool :=
  match pttlReply o with
  | Some n => n =? -2
  | None => false
  end.

(** The two ways a detector pass reports a reclamation: its lease query is
    answered "key absent", or the deletion of the Heartbeat Key, its last
    call before [return true] (line 35), is carried out. *)
Definition reclaimSign (heartbeatKey : string) (o : Obs Ev) : bool :=
  absentLease o ||
  (negb (failed o) &&
   match callOf o with
   | CDel k => String.eqb k heartbeatKey
   | _ => false
   end).

(** Number of detector passes of a trace that reported a reclamation. *)
Definition reclaims (heartbeatKey : string) (tr : list (Obs Ev)) : nat :=
  length (filter (reclaimSign heartbeatKey) tr).

(** * Properties *)

(** ** The JavaScript primitives on sample values *)

Example parseInt_samples :
  map JS.parseInt ["1700000000000"; "  -12ab"; "+7"; "0"; "-0"; "0x1f"; ""; "abc"; "-"] =
  [Some 1700000000000; Some (-12); Some 7; Some 0; Some 0; Some 0; None; None; None].
Proof. reflexivity. Qed.

Example String_samples :
  map JS.String_ [1700000000000; 0; -3] = ["1700000000000"; "0"; "-3"].
Proof. reflexivity. Qed.

Example heartbeatPeriod_value : heartbeatPeriod = 3500.
Proof. reflexivity. Qed.

(** ** Runs of composed programs *)

Section RunLemmas.

Variables (E : Type -> Type) (W : Type).
Variable h : forall X, E X -> W -> X * W.

Lemma run_bind A B (p : Prog E A) (f : A -> Prog E B) (s : W) :
  run h (pbind p f) s =
  andThen (run h p s) (fun a s' => run h (f a) s')
          (fun e s' => mkRun [] (Thrown e) s').
Proof.
  revert s. induction p as [a | e | X ev k IH]; intros s; cbn.
  - unfold andThen; cbn. now destruct (run h (f a) s).
  - reflexivity.
  - destruct (h ev s) as [x s']. rewrite IH. unfold andThen; cbn.
    destruct (outcome (run h (k x) s')); reflexivity.
Qed.

Lemma run_try_catch A (p : Prog E A) (hd : Err -> Prog E A) (s : W) :
  run h (try_catch p hd) s =
  andThen (run h p s) (fun a s' => mkRun [] (Returned a) s')
          (fun e s' => run h (hd e) s').
Proof.
  revert s. induction p as [a | e | X ev k IH]; intros s; cbn.
  - reflexivity.
  - unfold andThen; cbn. now destruct (run h (hd e) s).
  - destruct (h ev s) as [x s']. rewrite IH. unfold andThen; cbn.
    destruct (outcome (run h (k x) s')); reflexivity.
Qed.

End RunLemmas.

(** ** The Stale-Lock Detector *)

Section Detector.

Variable W : Type.
Variable h : forall X, Ev X -> W -> X * W.
Variables resource heartbeatKey : string.

Lemma forceReset_never_throws (s : W) :
  exists b, outcome (run h (forceResetLockIfStale resource heartbeatKey) s) = Returned b.
Proof. detector_cases h; now eexists. Qed.


(** C5: a detector pass in which some store call is rejected answers false;
    it neither answers true nor rejects, and when the rejected call is one of
    its two queries it deletes nothing. *)
Theorem forceReset_error_is_not_reclaimable (s : W) :
  let res := run h (forceResetLockIfStale resource heartbeatKey) s in
  existsb failed (trace res) = true ->
  outcome res = Returned false /\
  (existsb queryFailed (trace res) = true -> deleted (trace res) = []).
Proof.
  detector_cases h.
  all: intros Hfail; split; [|intros Hq]; try reflexivity; discriminate.
Qed.

(** C4: when the remaining-lease query reports the resource key absent, the
    detector answers true at once: that query is its only call, so the
    Heartbeat Key is not read and nothing is deleted. *)
Theorem forceReset_absent_lock (s s' : W) :
  h (Store (PttlAsync resource)) s = (inr (-2), s') ->
  run h (forceResetLockIfStale resource heartbeatKey) s =
  mkRun [Observe (Store (PttlAsync resource)) (inr (-2))] (Returned true) s'.
Proof.
  intros Hlease. unfold forceResetLockIfStale; cbn.
  rewrite Hlease. reflexivity.
Qed.


Lemma forceReset_one_query (s : W) :
  detectorPasses (trace (run h (forceResetLockIfStale resource heartbeatKey) s)) = 1%nat.
Proof. detector_cases h; reflexivity. Qed.

End Detector.



Lemma forceReset_error_is_not_reclaimable_witness :
  let res := run scripted (forceResetLockIfStale "compile-a" "compile-a:hb")
                 [Number (-1); Rejects "ECONNRESET"] in
  existsb failed (trace res) = true /\
  outcome res = Returned false /\
  (existsb queryFailed (trace res) = true -> deleted (trace res) = []).
Proof.
  intros res. split; [reflexivity|].
  apply (forceReset_error_is_not_reclaimable scripted "compile-a" "compile-a:hb"
           [Number (-1); Rejects "ECONNRESET"]).
  reflexivity.
Defined.

Lemma forceReset_absent_lock_witness :
  run scripted (forceResetLockIfStale "compile-a" "compile-a:hb") [Number (-2); Text None] =
  mkRun [Observe (Store (PttlAsync "compile-a")) (inr (-2))] (Returned true) [Text None].
Proof.
  apply forceReset_absent_lock. reflexivity.
Defined.


(** ** The existence check *)

Section ExistenceCheck.

Variable W : Type.
Variable h : forall X, Ev X -> W -> X * W.
Variable redisMetadataSuffix : string.

(** C9: whatever the store replies, [checkBinaryExistance name] makes one
    call, the existence query on [name ++ redisMetadataSuffix], and leaves
    the environment as that query left it: no write, no deletion, no lock
    operation, also when the query is rejected.  It returns true exactly when
    the store counts the key as existing, false exactly when it counts none,
    and rejects exactly when the query is rejected. *)
Theorem checkBinaryExistance_reads_marker (name : string) (s : W) :
  let key := (name ++ redisMetadataSuffix)%string in
  let reply := fst (h (Store (ExistsAsync key)) s) in
  let res := run h (checkBinaryExistance redisMetadataSuffix name) s in
  trace res = [Observe (Store (ExistsAsync key)) reply] /\
  existsb isMutation (calls (trace res)) = false /\
  final res = snd (h (Store (ExistsAsync key)) s) /\
  (outcome res = Returned true <-> exists n, reply = inr n /\ n <> 0) /\
  (outcome res = Returned false <-> reply = inr 0) /\
  (forall e, outcome res = Thrown e <-> reply = inl e).
Proof.
  unfold checkBinaryExistance; cbn.
  destruct (h (Store (ExistsAsync (name ++ redisMetadataSuffix)%string)) s)
    as [[e | n] s']; cbn.
  - repeat split; try discriminate.
    + intros (n & Hn & _). discriminate Hn.
    + intros [= ->]. reflexivity.
    + intros [= ->]. reflexivity.
  - destruct (Z.eqb_spec n 0) as [-> | Hn]; cbn.
    + repeat split; try discriminate.
      intros (n & [= <-] & Hn). contradiction.
    + repeat split; try discriminate.
      * intros _. now exists n.
      * intros [= ->]. contradiction.
Qed.

End ExistenceCheck.

(** The marker of ["bar"] before and after it is set. *)
Example checkBinaryExistance_before_and_after :
  outcome (run scripted (checkBinaryExistance ":meta" "bar") [Number 0]) = Returned false /\
  outcome (run scripted (checkBinaryExistance ":meta" "bar") [Number 1]) = Returned true.
Proof. split; reflexivity. Qed.

(** ** The release function *)

Section Release.

Variable W : Type.
Variable h : forall X, Ev X -> W -> X * W.

Lemma activeTimers_app (tr1 tr2 : list (Obs Ev)) :
  activeTimers (tr1 ++ tr2) = fold_left timerStep tr2 (activeTimers tr1).
Proof. apply fold_left_app. Qed.

(** C6: whatever the store replies, a release function returns normally
    after exactly three calls in this order: [clearInterval] on its timer,
    after which the timer is no longer registered, the unlock, and the
    deletion of the Heartbeat Key (attempted also when the unlock was
    rejected); invoking it again behaves the same. *)
Theorem releaseFunction_best_effort (token : Token) (lock : LockHandle)
        (heartbeatKey : string) (s : W) :
  let res := run h (releaseFunction token lock heartbeatKey) s in
  let again := run h (releaseFunction token lock heartbeatKey) (final res) in
  outcome res = Returned tt /\
  calls (trace res) = [CClearInterval token; CUnlock lock; CDel heartbeatKey] /\
  (forall before, ~ In token (activeTimers (before ++ trace res))) /\
  outcome again = Returned tt /\
  calls (trace again) = [CClearInterval token; CUnlock lock; CDel heartbeatKey].
Proof.
  assert (Honce : forall s0,
             let res := run h (releaseFunction token lock heartbeatKey) s0 in
             outcome res = Returned tt /\
             calls (trace res) = [CClearInterval token; CUnlock lock; CDel heartbeatKey] /\
             forall before, ~ In token (activeTimers (before ++ trace res))).
  { intros s0. unfold releaseFunction; cbn.
    answer h. answer h. split_reply; answer h; split_reply.
    all: repeat match goal with u : unit |- _ => destruct u end.
    all: split; [reflexivity | split; [reflexivity |]].
    all: intros before; rewrite activeTimers_app; cbn; apply remove_In. }
  intros res again.
  destruct (Honce s) as (H1 & H2 & H3).
  destruct (Honce (final res)) as (H4 & H5 & _).
  repeat split; assumption.
Qed.

End Release.

(** ** The acquisition loop *)

Section Loop.

Variable W : Type.
Variable h : forall X, Ev X -> W -> X * W.
Variables resource heartbeatKey : string.

#[local] Arguments forceResetLockIfStale : simpl never.

Lemma tryAcquire_run (s : W) :
  let a := run h (tryAcquire resource heartbeatKey) s in
  (exists e, outcome a = Thrown e /\ detectorPasses (trace a) = 0%nat) \/
  (exists lock now token,
      trace a = acquired resource heartbeatKey lock now token /\
      outcome a = Returned (Return (releaseFunction token lock heartbeatKey))).
Proof.
  unfold tryAcquire; cbn.
  answer h. split_reply; [left; now eexists|].
  answer h. answer h. split_reply; [left; now eexists|].
  answer h. split_reply; [left; now eexists|].
  answer h. right.
  repeat match goal with u : unit |- _ => destruct u end.
  now eexists _, _, _.
Qed.

Variable start : Z.

Lemma onFailure_run (s : W) :
  run h (onFailure resource heartbeatKey start) s =
  let (now, s1) := h (Store DateNow) s in
  if maxWaitMs <=? now - start then
    let d := run h (forceResetLockIfStale resource heartbeatKey) s1 in
    match outcome d with
    | Returned false =>
        mkRun (Observe (Store DateNow) now :: trace d) (Returned Break) (final d)
    | Returned true =>
        let (u, s2) := h (Store (Delay 200)) (final d) in
        mkRun (Observe (Store DateNow) now :: trace d ++ [Observe (Store (Delay 200)) u])
              (Returned Normal) s2
    | Thrown e =>
        mkRun (Observe (Store DateNow) now :: trace d) (Thrown e) (final d)
    end
  else
    let (u, s2) := h (Store (Delay 200)) s1 in
    mkRun [Observe (Store DateNow) now; Observe (Store (Delay 200)) u]
          (Returned Normal) s2.
Proof.
  unfold onFailure; cbn.
  destruct (h (Store DateNow) s) as [now s1]; cbn.
  destruct (maxWaitMs <=? now - start); cbn.
  - rewrite !run_bind. unfold andThen; cbn.
    destruct (outcome (run h (forceResetLockIfStale resource heartbeatKey) s1))
      as [[|]|e]; cbn.
    + destruct (h (Store (Delay 200)) _) as [u s2]; cbn.
      now rewrite app_nil_r.
    + now rewrite !app_nil_r.
    + now rewrite !app_nil_r.
  - destruct (h (Store (Delay 200)) s1) as [u s2]; reflexivity.
Qed.

#[local] Arguments tryAcquire : simpl never.
#[local] Arguments onFailure : simpl never.
#[local] Arguments loopBody : simpl never.

Lemma loopBody_run (s : W) :
  run h (loopBody resource heartbeatKey start) s =
  andThen (run h (tryAcquire resource heartbeatKey) s)
          (fun c s' => mkRun [] (Returned c) s')
          (fun _ s' => run h (onFailure resource heartbeatKey start) s').
Proof. unfold loopBody; cbn. apply run_try_catch. Qed.

Lemma loopBody_failed (s : W) (e : Err) :
  let a := run h (tryAcquire resource heartbeatKey) s in
  let c := run h (onFailure resource heartbeatKey start) (final a) in
  outcome a = Thrown e ->
  run h (loopBody resource heartbeatKey start) s =
  mkRun (trace a ++ trace c) (outcome c) (final c).
Proof.
  cbv zeta. intros Ha. rewrite loopBody_run. unfold andThen. now rewrite Ha.
Qed.

Lemma loopBody_acquired (s : W) (v : Completion (Prog Ev unit)) :
  let a := run h (tryAcquire resource heartbeatKey) s in
  outcome a = Returned v ->
  run h (loopBody resource heartbeatKey start) s =
  mkRun (trace a) (Returned v) (final a).
Proof.
  cbv zeta. intros Ha. rewrite loopBody_run. unfold andThen. rewrite Ha; cbn.
  now rewrite app_nil_r.
Qed.

Lemma whileTrue_run (n : nat) (s : W) :
  run h (whileTrue (S n) resource heartbeatKey start) s =
  andThen (run h (loopBody resource heartbeatKey start) s)
          (fun c s' =>
             match c with
             | Return f => mkRun [] (Returned (Some f)) s'
             | Break => mkRun [] (Returned (Some noopRelease)) s'
             | Normal => run h (whileTrue n resource heartbeatKey start) s'
             end)
          (fun e s' => mkRun [] (Thrown e) s').
Proof.
  cbn. rewrite run_bind. unfold andThen.
  destruct (outcome (run h (loopBody resource heartbeatKey start) s)) as [[| |f]|e];
    reflexivity.
Qed.

Lemma onFailure_never_throws (s : W) :
  exists c, outcome (run h (onFailure resource heartbeatKey start) s) = Returned c.
Proof.
  rewrite onFailure_run.
  destruct (h (Store DateNow) s) as [now s1].
  destruct (maxWaitMs <=? now - start).
  - destruct (forceReset_never_throws h resource heartbeatKey s1) as [b Hb].
    cbv zeta. rewrite Hb. destruct b.
    + destruct (h (Store (Delay 200)) _). now eexists.
    + now eexists.
  - destruct (h (Store (Delay 200)) s1). now eexists.
Qed.

Lemma loopBody_never_throws (s : W) :
  exists c, outcome (run h (loopBody resource heartbeatKey start) s) = Returned c.
Proof.
  rewrite loopBody_run. unfold andThen.
  destruct (tryAcquire_run s) as [(e & He & _) | (lock & now & token & _ & Ha)].
  - rewrite He. apply onFailure_never_throws.
  - rewrite Ha. now eexists.
Qed.

Lemma whileTrue_never_throws (fuel : nat) (s : W) :
  exists v, outcome (run h (whileTrue fuel resource heartbeatKey start) s) = Returned v.
Proof.
  revert s. induction fuel as [|n IH]; intros s.
  - now eexists.
  - rewrite whileTrue_run. unfold andThen.
    destruct (loopBody_never_throws s) as [c Hc]. rewrite Hc.
    destruct c; cbn; [apply IH | now eexists | now eexists].
Qed.

(** A pass that lets the loop go on has just slept 200 ms, whether or not
    a reclamation came before. *)
Lemma loopBody_sleeps_before_retry (s : W) :
  let c := run h (loopBody resource heartbeatKey start) s in
  outcome c = Returned Normal ->
  exists tr u, trace c = tr ++ [Observe (Store (Delay 200)) u].
Proof.
  cbv zeta.
  destruct (tryAcquire_run s) as [(e & He & _) | (lock & now & token & _ & Ha)].
  2:{ rewrite (loopBody_acquired s Ha). discriminate. }
  rewrite (loopBody_failed s He), onFailure_run.
  destruct (h (Store DateNow) _) as [now s1].
  destruct (maxWaitMs <=? now - start); cbv zeta.
  - destruct (outcome (run h (forceResetLockIfStale resource heartbeatKey) s1))
      as [[|]|e']; try discriminate.
    destruct (h (Store (Delay 200)) _) as [u s2]. cbn [trace outcome]. intros _.
    eexists (_ ++ Observe (Store DateNow) now :: _), u.
    now rewrite <- app_assoc.
  - destruct (h (Store (Delay 200)) s1) as [u s2]. cbn [trace outcome]. intros _.
    eexists (_ ++ [Observe (Store DateNow) now]), u.
    now rewrite <- app_assoc.
Qed.

(** Once the loop has returned, more fuel changes nothing. *)
Lemma whileTrue_enough_fuel (n : nat) :
  forall (m : nat) (s : W) (f : Prog Ev unit),
    (n <= m)%nat ->
    outcome (run h (whileTrue n resource heartbeatKey start) s) = Returned (Some f) ->
    run h (whileTrue m resource heartbeatKey start) s =
    run h (whileTrue n resource heartbeatKey start) s.
Proof.
  induction n as [|n IH]; intros m s f Hle; [discriminate|].
  destruct m as [|m]; [lia|].
  rewrite !whileTrue_run. unfold andThen.
  destruct (outcome (run h (loopBody resource heartbeatKey start) s)) as [[| |g]|e];
    cbn; try reflexivity.
  intros Hout. now rewrite (IH m _ f ltac:(lia) Hout).
Qed.

(** A loop still running after [k] passes goes on from where it is. *)
Lemma whileTrue_continue (k m : nat) (s : W) :
  let r0 := run h (whileTrue k resource heartbeatKey start) s in
  let r1 := run h (whileTrue m resource heartbeatKey start) (final r0) in
  outcome r0 = Returned None ->
  run h (whileTrue (k + m) resource heartbeatKey start) s =
  mkRun (trace r0 ++ trace r1) (outcome r1) (final r1).
Proof.
  revert s. induction k as [|k IH]; intros s.
  - cbn. intros _. now destruct (run h (whileTrue m resource heartbeatKey start) s).
  - cbv zeta. change (S k + m)%nat with (S (k + m)).
    rewrite !whileTrue_run. unfold andThen.
    destruct (outcome (run h (loopBody resource heartbeatKey start) s)) as [[| |f]|e];
      cbn; try discriminate.
    intros Hnone. rewrite (IH _ Hnone). cbn. now rewrite app_assoc.
Qed.

Lemma whileTrue_gives_up (n : nat) (s : W) (e : Err) :
  let a := run h (tryAcquire resource heartbeatKey) s in
  let now := fst (h (Store DateNow) (final a)) in
  let d := run h (forceResetLockIfStale resource heartbeatKey)
               (snd (h (Store DateNow) (final a))) in
  outcome a = Thrown e ->
  maxWaitMs <= now - start ->
  outcome d = Returned false ->
  run h (whileTrue (S n) resource heartbeatKey start) s =
  mkRun (trace a ++ Observe (Store DateNow) now :: trace d)
        (Returned (Some noopRelease)) (final d).
Proof.
  cbv zeta. intros Ha Hnow Hd.
  rewrite whileTrue_run, loopBody_run. unfold andThen at 2. rewrite Ha.
  rewrite onFailure_run.
  destruct (h (Store DateNow) (final (run h (tryAcquire resource heartbeatKey) s)))
    as [now s1]; cbn in *.
  apply Z.leb_le in Hnow. rewrite Hnow, Hd. unfold andThen; cbn.
  now rewrite app_nil_r.
Qed.

Lemma whileTrue_success (fuel : nat) (s : W) (f : Prog Ev unit) :
  let res := run h (whileTrue fuel resource heartbeatKey start) s in
  outcome res = Returned (Some f) ->
  f <> noopRelease ->
  exists before lock now token,
    trace res = before ++ acquired resource heartbeatKey lock now token /\
    f = releaseFunction token lock heartbeatKey.
Proof.
  revert s. induction fuel as [|n IH]; intros s; [discriminate|].
  cbv zeta. rewrite whileTrue_run.
  destruct (tryAcquire_run s) as [(e & He & _) | (lock & now & token & Htr & Ha)].
  - rewrite (loopBody_failed s He).
    set (a := run h (tryAcquire resource heartbeatKey) s).
    set (c := run h (onFailure resource heartbeatKey start) (final a)).
    unfold andThen; cbn.
    destruct (outcome c) as [[| |g]|e'] eqn:Hc; cbn; intros Hout Hf.
    + destruct (IH _ Hout Hf) as (before & l & t & k & Htr & ->).
      exists ((trace a ++ trace c) ++ before), l, t, k.
      rewrite Htr. now rewrite !app_assoc.
    + injection Hout as <-. contradiction.
    + exfalso. subst c. rewrite onFailure_run in Hc.
      destruct (h (Store DateNow) (final a)) as [t s1].
      destruct (maxWaitMs <=? t - start).
      * cbv zeta in Hc.
        destruct (outcome (run h (forceResetLockIfStale resource heartbeatKey) s1))
          as [[|]|]; try discriminate.
        destruct (h (Store (Delay 200)) _); discriminate.
      * destruct (h (Store (Delay 200)) s1); discriminate.
    + discriminate.
  - rewrite (loopBody_acquired s Ha). unfold andThen; cbn.
    intros [= <-] _. exists [], lock, now, token.
    rewrite Htr. now rewrite app_nil_r.
Qed.

End Loop.

Lemma getCompileLock_never_throws W (h : forall X, Ev X -> W -> X * W)
      (fuel : nat) (name : string) (s : W) :
  exists v, outcome (run h (getCompileLock fuel name) s) = Returned v.
Proof.
  unfold getCompileLock; cbn.
  destruct (h _ (Store DateNow) s) as [start s1]; cbn.
  apply whileTrue_never_throws.
Qed.

(** ** Acquisition as a whole *)

Section Acquisition.

Variable W : Type.
Variable h : forall X, Ev X -> W -> X * W.

#[local] Arguments forceResetLockIfStale : simpl never.
#[local] Arguments tryAcquire : simpl never.
#[local] Arguments whileTrue : simpl never.

Lemma getCompileLock_run (fuel : nat) (name : string) (s : W) :
  run h (getCompileLock fuel name) s =
  let resource := ("compile-" ++ name)%string in
  let (start, s1) := h (Store DateNow) s in
  let r := run h (whileTrue fuel resource (resource ++ ":hb")%string start) s1 in
  mkRun (Observe (Store DateNow) start :: trace r) (outcome r) (final r).
Proof.
  unfold getCompileLock; cbn.
  destruct (h (Store DateNow) s) as [start s1]. reflexivity.
Qed.

(** A heartbeat tick never rejects.  Its run is one of three: the extension
    is rejected and nothing else is done; the lease is extended, the clock is
    read and the write of that reading is rejected; or the reading is written
    and the expiry is set, whatever the reply to the latter. *)
Lemma heartbeatTick_run (lock : LockHandle) (heartbeatKey : string) (s : W) :
  let t := run (storeOnly h) (heartbeatTick lock heartbeatKey) s in
  outcome t = Returned tt /\
  ((exists e, trace t = [Observe (LockExtend lock lockTTL) (inl e)]) \/
   (exists now e,
       trace t = [Observe (LockExtend lock lockTTL) (inr tt);
                  Observe DateNow now;
                  Observe (SetAsync heartbeatKey (JS.String_ now)) (inl e)]) \/
   (exists now r,
       trace t = [Observe (LockExtend lock lockTTL) (inr tt);
                  Observe DateNow now;
                  Observe (SetAsync heartbeatKey (JS.String_ now)) (inr tt);
                  Observe (PexpireAsync heartbeatKey (2 * lockTTL)) r] /\
       tickCalls (trace t) = fullTick lock heartbeatKey now)).
Proof.
  unfold heartbeatTick, storeOnly; cbn.
  answer h. split_reply.
  { split; [reflexivity|]. left. now eexists. }
  answer h. answer h. split_reply.
  { repeat match goal with u : unit |- _ => destruct u end.
    split; [reflexivity|]. right; left. now eexists _, _. }
  answer h.
  repeat match goal with u : unit |- _ => destruct u end.
  split_reply.
  all: repeat match goal with u : unit |- _ => destruct u end.
  all: split; [reflexivity|]; right; right.
  all: eexists _, _; split; reflexivity.
Qed.

(** C8: when [getCompileLock name] returns a release function other than the
    no-op, its last calls were: the lock on [compile-<name>] with the lock TTL
    (5000), a clock reading, the write of that reading under
    [compile-<name>:hb], the expiry of that key set to twice the TTL (10000),
    and [setInterval] of the heartbeat tick with period 3500; the function
    returned is the release of that timer and lock.  A tick extends the lease
    by the TTL, reads the clock, writes that very reading under the Heartbeat
    Key and sets its expiry to twice the TTL; it stops at the first rejected
    call, repeats none, and never rejects itself. *)
Theorem successful_acquisition (fuel : nat) (name : string) (s : W) (f : Prog Ev unit) :
  let resource := ("compile-" ++ name)%string in
  let heartbeatKey := (resource ++ ":hb")%string in
  let res := run h (getCompileLock fuel name) s in
  outcome res = Returned (Some f) ->
  f <> noopRelease ->
  (lockTTL, 2 * lockTTL, heartbeatPeriod) = (5000, 10000, 3500) /\
  exists before lock now token,
    trace res = before ++ acquired resource heartbeatKey lock now token /\
    f = releaseFunction token lock heartbeatKey /\
    forall s',
      let t := run (storeOnly h) (heartbeatTick lock heartbeatKey) s' in
      outcome t = Returned tt /\
      ((exists e, trace t = [Observe (LockExtend lock lockTTL) (inl e)]) \/
       (exists now e,
           trace t = [Observe (LockExtend lock lockTTL) (inr tt);
                      Observe DateNow now;
                      Observe (SetAsync heartbeatKey (JS.String_ now)) (inl e)]) \/
       (exists now r,
           trace t = [Observe (LockExtend lock lockTTL) (inr tt);
                      Observe DateNow now;
                      Observe (SetAsync heartbeatKey (JS.String_ now)) (inr tt);
                      Observe (PexpireAsync heartbeatKey (2 * lockTTL)) r] /\
           tickCalls (trace t) = fullTick lock heartbeatKey now)).
Proof.
  cbv zeta. rewrite getCompileLock_run. cbv zeta.
  destruct (h (Store DateNow) s) as [start s1]. cbn [trace outcome final].
  intros Hout Hf. split; [reflexivity|].
  destruct (whileTrue_success h _ _ _ _ s1 Hout Hf) as (before & lock & now & token & Htr & ->).
  exists (Observe (Store DateNow) start :: before), lock, now, token.
  rewrite Htr. split; [reflexivity|]. split; [reflexivity|].
  intros s'. apply heartbeatTick_run.
Qed.

(** C7: if, while [getCompileLock name] is still looping, an attempt fails
    at or beyond the maximum wait and the detector answers false, the call
    returns the no-op release right after that detector pass; the no-op makes
    no call and returns; and [getCompileLock] never rejects. *)
Theorem exhausted_acquisition_returns_noop (k n : nat) (name : string) (s : W) (e : Err) :
  let resource := ("compile-" ++ name)%string in
  let heartbeatKey := (resource ++ ":hb")%string in
  let start := fst (h (Store DateNow) s) in
  let r0 := run h (getCompileLock k name) s in
  let a := run h (tryAcquire resource heartbeatKey) (final r0) in
  let now := fst (h (Store DateNow) (final a)) in
  let d := run h (forceResetLockIfStale resource heartbeatKey)
               (snd (h (Store DateNow) (final a))) in
  outcome r0 = Returned None ->
  outcome a = Thrown e ->
  maxWaitMs <= now - start ->
  outcome d = Returned false ->
  run h (getCompileLock (k + S n) name) s =
  mkRun (trace r0 ++ trace a ++ Observe (Store DateNow) now :: trace d)
        (Returned (Some noopRelease)) (final d) /\
  (forall s', run h noopRelease s' = mkRun [] (Returned tt) s') /\
  (forall fuel s', exists v, outcome (run h (getCompileLock fuel name) s') = Returned v).
Proof.
  cbv zeta. rewrite !getCompileLock_run. cbv zeta.
  destruct (h (Store DateNow) s) as [start s1]. cbn [trace outcome final fst].
  intros Hloop Ha Hnow Hd.
  split; [|split; [reflexivity | intros; apply getCompileLock_never_throws]].
  rewrite (whileTrue_continue h _ _ _ k (S n) s1 Hloop).
  cbn [trace outcome final].
  rewrite (whileTrue_gives_up h _ _ _ n _ Ha Hnow Hd).
  reflexivity.
Qed.

End Acquisition.

Lemma successful_acquisition_witness :
  let res := run scripted (getCompileLock 1 "a")
                 [Number 0; Number 7; Number 5; Ok; Ok; Number 3] in
  outcome res = Returned (Some (releaseFunction 3%nat 7%nat "compile-a:hb")) /\
  exists before lock now token,
    trace res = before ++ acquired "compile-a" "compile-a:hb" lock now token /\
    releaseFunction 3%nat 7%nat "compile-a:hb" = releaseFunction token lock "compile-a:hb".
Proof.
  intros res. split; [reflexivity|].
  destruct (@successful_acquisition _ scripted 1 "a"
              [Number 0; Number 7; Number 5; Ok; Ok; Number 3]
              (releaseFunction 3%nat 7%nat "compile-a:hb") eq_refl)
    as (_ & before & lock & now & token & Htr & Hf & _).
  - unfold releaseFunction, noopRelease; cbn. discriminate.
  - exists before, lock, now, token. split; assumption.
Defined.

Lemma exhausted_acquisition_returns_noop_witness :
  let script := [Number 0; Rejects "held"; Number 15000;
                 Number 3000; Text (Some "14000"); Number 15000] in
  outcome (run scripted (getCompileLock 1 "a") script) = Returned (Some noopRelease) /\
  calls (trace (run scripted (getCompileLock 1 "a") script)) =
  [CNow; CLock "compile-a" 5000; CNow; CPttl "compile-a"; CGet "compile-a:hb"; CNow].
Proof.
  intros script.
  destruct (@exhausted_acquisition_returns_noop _ scripted 0 0 "a" script "held"
              eq_refl eq_refl ltac:(vm_compute; discriminate) eq_refl)
    as (Hrun & _ & _).
  cbn [Nat.add] in Hrun. rewrite Hrun. split; reflexivity.
Defined.

(** C2: the lock is held by a process that wrote no heartbeat; at the maximum
    wait the detector reclaims it, and the 200 ms delay still comes before the
    next attempt. *)
Theorem backoff_follows_reclamation :
  let res := run scripted (getCompileLock 2 "a")
                 [Number 0; Rejects "held"; Number 15000;
                  Number 3000; Text None; Ok; Ok;
                  Ok; Number 7; Number 15200; Ok; Ok; Number 1] in
  calls (trace res) =
  [CNow; CLock "compile-a" 5000; CNow;
   CPttl "compile-a"; CGet "compile-a:hb"; CDel "compile-a"; CDel "compile-a:hb";
   CDelay 200; CLock "compile-a" 5000; CNow;
   CSet "compile-a:hb" "15200"; CPexpire "compile-a:hb" 10000; CSetInterval 3500] /\
  outcome res = Returned (Some (releaseFunction 1%nat 7%nat "compile-a:hb")).
Proof. split; reflexivity. Qed.

(** ** How long acquisition can take *)

Lemma detectorPasses_app (tr1 tr2 : list (Obs Ev)) :
  detectorPasses (tr1 ++ tr2) = (detectorPasses tr1 + detectorPasses tr2)%nat.
Proof.
  unfold detectorPasses, calls. now rewrite map_app, filter_app, length_app.
Qed.

Lemma replica_loop_goes_on (fuel : nat) (resource heartbeatKey : string) (start clock : Z) :
  outcome (run readOnlyReplica (whileTrue fuel resource heartbeatKey start) clock)
  = Returned None.
Proof.
  revert clock. induction fuel as [|n IH]; intros clock; [reflexivity|].
  cbn. destruct (maxWaitMs <=? clock - start); cbn; apply IH.
Qed.

(** C1 as stated fails: against a read-only replica no amount of fuel makes
    the call return, and a detector pass is made in every pass of the loop
    from the maximum wait on (five of them within eighty passes). *)
Lemma acquisition_can_go_on_forever :
  ~ (exists fuel f,
        outcome (run readOnlyReplica (getCompileLock fuel "a") 0) = Returned (Some f)) /\
  detectorPasses (trace (run readOnlyReplica (getCompileLock 80 "a") 0)) = 5%nat.
Proof.
  split.
  - intros (fuel & f & Hout).
    unfold getCompileLock in Hout; cbn in Hout.
    rewrite replica_loop_goes_on in Hout. discriminate.
  - vm_compute. reflexivity.
Qed.

Lemma reclaims_app (heartbeatKey : string) (tr1 tr2 : list (Obs Ev)) :
  reclaims heartbeatKey (tr1 ++ tr2) =
  (reclaims heartbeatKey tr1 + reclaims heartbeatKey tr2)%nat.
Proof. unfold reclaims. now rewrite filter_app, length_app. Qed.

Section Reclamations.

Variable W : Type.
Variable h : forall X, Ev X -> W -> X * W.
Variables resource heartbeatKey : string.
Hypothesis distinct_keys : resource <> heartbeatKey.

#[local] Arguments reclaims : simpl never.

(** A detector pass counts as a reclamation exactly when it answers true. *)
Lemma forceReset_reclaims (s : W) :
  let d := run h (forceResetLockIfStale resource heartbeatKey) s in
  reclaims heartbeatKey (trace d) =
  match outcome d with
  | Returned true => 1%nat
  | _ => 0%nat
  end.
Proof.
  apply String.eqb_neq in distinct_keys.
  detector_cases h.
  all: try match goal with H : ?z = -2 |- _ => subst z end.
  all: unfold reclaims, reclaimSign, absentLease; cbn.
  all: repeat match goal with
         | H : ?z <> -2 |- _ => apply Z.eqb_neq in H; rewrite ?H
         end.
  all: rewrite ?distinct_keys, ?String.eqb_refl; reflexivity.
Qed.

Lemma tryAcquire_no_reclaim (s : W) :
  reclaims heartbeatKey (trace (run h (tryAcquire resource heartbeatKey) s)) = 0%nat.
Proof.
  unfold tryAcquire; cbn.
  answer h. split_reply.
  2: answer h; answer h; split_reply.
  3: answer h; split_reply.
  4: answer h.
  all: reflexivity.
Qed.

End Reclamations.

Section BoundedAcquisition.

Variable W : Type.
Variable h : forall X, Ev X -> W -> X * W.

(** The wall clock of the environment. *)
Variable time : W -> Z.

Hypothesis clock_reads : forall s, fst (h (Store DateNow) s) = time s.
Hypothesis time_monotone : forall X (ev : Ev X) s, time s <= time (snd (h ev s)).
Hypothesis delay_elapses :
  forall ms s, time s + ms <= time (snd (h (Store (Delay ms)) s)).

Lemma run_time R (p : Prog Ev R) (s : W) : time s <= time (final (run h p s)).
Proof.
  revert s. induction p as [r | e | X ev k IH]; intros s; cbn; try lia.
  specialize (time_monotone ev s).
  destruct (h ev s) as [x s']; cbn in *.
  specialize (IH x s'). lia.
Qed.

Section BoundedLoop.

Variables resource heartbeatKey : string.
Variable start : Z.
Hypothesis distinct_keys : resource <> heartbeatKey.

#[local] Arguments forceResetLockIfStale : simpl never.
#[local] Arguments tryAcquire : simpl never.
#[local] Arguments whileTrue : simpl never.

(** Every detector pass but the last reported a reclamation; and a loop
    still running after [fuel] passes, of which at most [n] can come before
    the maximum wait, has seen a reclamation in each of the others. *)
Lemma whileTrue_progress (fuel : nat) :
  forall (n : nat) (s : W),
    start + maxWaitMs - 200 * Z.of_nat n <= time s ->
    let res := run h (whileTrue fuel resource heartbeatKey start) s in
    (detectorPasses (trace res) <= reclaims heartbeatKey (trace res) + 1)%nat /\
    match outcome res with
    | Returned None => (fuel <= n + reclaims heartbeatKey (trace res))%nat
    | Returned (Some _) => True
    | Thrown _ => False
    end.
Proof.
  induction fuel as [|fuel IH]; intros n s Htime.
  { unfold whileTrue; cbn. split; lia. }
  cbv zeta. rewrite whileTrue_run.
  pose proof (tryAcquire_no_reclaim h resource heartbeatKey s) as Hra.
  destruct (tryAcquire_run h resource heartbeatKey s)
    as [(e & He & Hpa) | (lock & now & token & Htr & Ha)].
  2:{ rewrite (loopBody_acquired h _ _ start s Ha). unfold andThen; cbn [trace outcome final].
      rewrite app_nil_r, Hra, Htr. cbn. split; [lia | exact I]. }
  rewrite (loopBody_failed h _ _ start s He).
  pose proof (run_time (tryAcquire resource heartbeatKey) s) as Hta.
  set (a := run h (tryAcquire resource heartbeatKey) s) in *.
  rewrite onFailure_run.
  pose proof (clock_reads (final a)) as Hclock.
  pose proof (time_monotone (Store DateNow) (final a)) as Ht1.
  destruct (h (Store DateNow) (final a)) as [now s1]; cbn in Hclock, Ht1.
  destruct (Z.leb_spec maxWaitMs (now - start)) as [Hlate | Hearly]; cbv zeta.
  - pose proof (run_time (forceResetLockIfStale resource heartbeatKey) s1) as Htd.
    pose proof (forceReset_one_query h resource heartbeatKey s1) as Hpd.
    pose proof (forceReset_reclaims h distinct_keys s1) as Hrd.
    destruct (forceReset_never_throws h resource heartbeatKey s1) as [r Hd].
    cbv zeta in Hrd.
    set (d := run h (forceResetLockIfStale resource heartbeatKey) s1) in *.
    rewrite Hd in Hrd |- *. destruct r.
    + pose proof (time_monotone (Store (Delay 200)) (final d)) as Ht2.
      destruct (h (Store (Delay 200)) (final d)) as [u s2]; cbn in Ht2.
      unfold andThen; cbn [trace outcome final].
      destruct (IH n s2 ltac:(lia)) as [Hpasses Hout].
      change (Observe (Store DateNow) now :: trace d ++ [Observe (Store (Delay 200)) u])
        with ([Observe (Store DateNow) now] ++ trace d ++ [Observe (Store (Delay 200)) u]).
      rewrite !detectorPasses_app, !reclaims_app, Hpa, Hpd, Hra, Hrd.
      change (detectorPasses [Observe (Store DateNow) now]) with 0%nat.
      change (detectorPasses [Observe (Store (Delay 200)) u]) with 0%nat.
      change (reclaims heartbeatKey [Observe (Store DateNow) now]) with 0%nat.
      change (reclaims heartbeatKey [Observe (Store (Delay 200)) u]) with 0%nat.
      split; [lia|].
      destruct (outcome (run h (whileTrue fuel resource heartbeatKey start) s2))
        as [[f|]|e']; [exact I | lia | contradiction].
    + unfold andThen; cbn [trace outcome final]. rewrite app_nil_r.
      change (Observe (Store DateNow) now :: trace d)
        with ([Observe (Store DateNow) now] ++ trace d).
      rewrite !detectorPasses_app, !reclaims_app, Hpa, Hpd, Hra, Hrd.
      change (detectorPasses [Observe (Store DateNow) now]) with 0%nat.
      split; [lia | exact I].
  - pose proof (delay_elapses 200 s1) as Ht2.
    destruct (h (Store (Delay 200)) s1) as [u s2]; cbn in Ht2.
    unfold andThen; cbn [trace outcome final].
    unfold maxWaitMs in *.
    destruct n as [|n']; [lia|].
    destruct (IH n' s2 ltac:(lia)) as [Hpasses Hout].
    change [Observe (Store DateNow) now; Observe (Store (Delay 200)) u]
      with ([Observe (Store DateNow) now] ++ [Observe (Store (Delay 200)) u]).
    rewrite !detectorPasses_app, !reclaims_app, Hpa, Hra.
    change (detectorPasses [Observe (Store DateNow) now]) with 0%nat.
    change (detectorPasses [Observe (Store (Delay 200)) u]) with 0%nat.
    change (reclaims heartbeatKey [Observe (Store DateNow) now]) with 0%nat.
    change (reclaims heartbeatKey [Observe (Store (Delay 200)) u]) with 0%nat.
    split; [lia|].
    destruct (outcome (run h (whileTrue fuel resource heartbeatKey start) s2))
      as [[f|]|e']; [exact I | lia | contradiction].
Qed.

End BoundedLoop.

#[local] Arguments whileTrue : simpl never.

Lemma length_append (s1 s2 : string) :
  String.length (s1 ++ s2) = (String.length s1 + String.length s2)%nat.
Proof. induction s1 as [|c s1 IH]; cbn; [reflexivity | now rewrite IH]. Qed.

Lemma compile_keys_distinct (name : string) :
  ("compile-" ++ name)%string <> (("compile-" ++ name) ++ ":hb")%string.
Proof.
  intros Heq. apply (f_equal String.length) in Heq.
  rewrite !length_append in Heq. cbn in Heq. lia.
Qed.

(** C1 (amended): if the clock never goes back and a delay lets at least its
    duration elapse, then a call of which at most [B] detector passes report
    a reclamation returns a release function within [76 + B] passes of its
    loop, having made at most [B + 1] detector passes. *)
Theorem getCompileLock_bounded (name : string) (s : W) (B : nat) :
  let heartbeatKey := (("compile-" ++ name) ++ ":hb")%string in
  let res := run h (getCompileLock (76 + B) name) s in
  (reclaims heartbeatKey (trace res) <= B)%nat ->
  (exists f, outcome res = Returned (Some f)) /\
  (detectorPasses (trace res) <= B + 1)%nat.
Proof.
  cbv zeta. rewrite getCompileLock_run. cbv zeta.
  pose proof (clock_reads s) as Hclock.
  pose proof (time_monotone (Store DateNow) s) as Ht.
  destruct (h (Store DateNow) s) as [t0 s1]; cbn in Hclock, Ht.
  cbn [trace outcome final].
  change (Observe (Store DateNow) t0 :: ?tr) with ([Observe (Store DateNow) t0] ++ tr).
  rewrite detectorPasses_app, reclaims_app.
  change (detectorPasses [Observe (Store DateNow) t0]) with 0%nat.
  change (reclaims (("compile-" ++ name) ++ ":hb") [Observe (Store DateNow) t0]) with 0%nat.
  intros Hbound.
  destruct (@whileTrue_progress ("compile-" ++ name)%string
              (("compile-" ++ name) ++ ":hb")%string t0
              (@compile_keys_distinct name) (76 + B)%nat 75%nat s1)
    as [Hpasses Hout]; [unfold maxWaitMs; lia |].
  split; [|lia].
  destruct (outcome _) as [[f|]|e]; [now exists f | lia | contradiction].
Qed.

End BoundedAcquisition.

Lemma getCompileLock_bounded_witness :
  let res := run lapsing (getCompileLock 78 "a") (0, 2%nat) in
  (reclaims "compile-a:hb" (trace res) <= 2)%nat /\
  (exists f, outcome res = Returned (Some f)) /\
  (detectorPasses (trace res) <= 3)%nat.
Proof.
  intros res. split; [vm_compute; repeat constructor|].
  refine (@getCompileLock_bounded (Z * nat) lapsing fst _ _ _ "a" (0, 2%nat) 2 _).
  - intros [clock grants]. reflexivity.
  - intros X ev [clock grants].
    destruct ev as [X ev | |]; [destruct ev|..]; try destruct grants; cbn; lia.
  - intros ms [clock grants]. cbn. lia.
  - vm_compute. repeat constructor.
Defined.

(** The bounds are reached: with two reclamations granted the call makes
    three detector passes and returns, the no-op, in its 78th pass. *)
Example bounds_are_reached :
  let res := fun fuel => run lapsing (getCompileLock fuel "a") (0, 2%nat) in
  outcome (res 77%nat) = Returned None /\
  outcome (res 78%nat) = Returned (Some noopRelease) /\
  detectorPasses (trace (res 78%nat)) = 3%nat.
Proof. vm_compute. repeat split. Qed.

(** * Further properties of the module *)

(** ** The timestamp written is the timestamp read *)

Lemma digits_of_uint_acc (d : Decimal.uint) :
  forall p : positive,
    JS.digits (NilEmpty.string_of_uint d) true (Z.pos p) = Some (Z.pos (Pos.of_uint_acc d p)).
Proof.
  induction d; intros p; cbn [NilEmpty.string_of_uint JS.digits Pos.of_uint_acc];
    [reflexivity | ..].
  all: match goal with
       | |- context [JS.digitValue ?c] =>
           let v := eval vm_compute in (JS.digitValue c) in
           change (JS.digitValue c) with v; cbv iota
       end.
  all: rewrite <- IHd; f_equal; lia.
Qed.

Lemma digits_of_uint (d : Decimal.uint) :
  forall seen : bool,
    d <> Decimal.Nil \/ seen = true ->
    JS.digits (NilEmpty.string_of_uint d) seen 0 = Some (Z.of_uint d).
Proof.
  unfold Z.of_uint.
  induction d; intros seen Hd;
    cbn [NilEmpty.string_of_uint JS.digits Pos.of_uint].
  - destruct Hd as [Hd | ->]; [contradiction | reflexivity].
  - change (JS.digitValue "0") with (Some 0); cbv iota.
    change (10 * 0 + 0) with 0. apply IHd. now right.
  - change (JS.digitValue "1") with (Some 1); cbv iota. apply (digits_of_uint_acc d 1).
  - change (JS.digitValue "2") with (Some 2); cbv iota. apply (digits_of_uint_acc d 2).
  - change (JS.digitValue "3") with (Some 3); cbv iota. apply (digits_of_uint_acc d 3).
  - change (JS.digitValue "4") with (Some 4); cbv iota. apply (digits_of_uint_acc d 4).
  - change (JS.digitValue "5") with (Some 5); cbv iota. apply (digits_of_uint_acc d 5).
  - change (JS.digitValue "6") with (Some 6); cbv iota. apply (digits_of_uint_acc d 6).
  - change (JS.digitValue "7") with (Some 7); cbv iota. apply (digits_of_uint_acc d 7).
  - change (JS.digitValue "8") with (Some 8); cbv iota. apply (digits_of_uint_acc d 8).
  - change (JS.digitValue "9") with (Some 9); cbv iota. apply (digits_of_uint_acc d 9).
Qed.

Lemma digits_NilZero (d : Decimal.uint) :
  JS.digits (NilZero.string_of_uint d) false 0 = Some (Z.of_uint d).
Proof.
  destruct d; try reflexivity.
  all: unfold NilZero.string_of_uint; apply digits_of_uint; left; discriminate.
Qed.

Lemma parseInt_String_ (n : Z) : JS.parseInt (JS.String_ n) = Some n.
Proof.
  unfold JS.String_.
  rewrite <- (DecimalZ.of_to n) at 2.
  destruct (Z.to_int n) as [d | d]; cbn [NilZero.string_of_int Z.of_int].
  - rewrite <- digits_NilZero.
    destruct d; reflexivity.
  - unfold JS.parseInt.
    change (JS.trimStart (String "-" (NilZero.string_of_uint d)))
      with (String "-" (NilZero.string_of_uint d)).
    cbv iota. now rewrite digits_NilZero.
Qed.

Lemma truthy_String_ (n : Z) : JS.truthyString (Some (JS.String_ n)) = true.
Proof.
  unfold JS.String_.
  destruct (Z.to_int n) as [d | d]; [destruct d|]; reflexivity.
Qed.

(** X1: the decimal text written under the Heartbeat Key (lines 53 and 59)
    is never the empty string, and [parseInt] (line 31) reads back from it
    the very number that was written. *)
Theorem heartbeat_timestamp_round_trip (n : Z) :
  JS.truthyString (Some (JS.String_ n)) = true /\
  JS.parseInt (JS.String_ n) = Some n.
Proof. split; [apply truthy_String_ | apply parseInt_String_]. Qed.

(** ** More on the Stale-Lock Detector *)

Section DetectorMore.

Variable W : Type.
Variable h : forall X, Ev X -> W -> X * W.
Variables resource heartbeatKey : string.


End DetectorMore.


Section DetectorAnswers.

Variable W : Type.
Variable h : forall X, Ev X -> W -> X * W.
Variables resource heartbeatKey : string.

(** X3: what an answer of the detector tells.  The store removes nothing,
    the resource key alone, or the resource key and then the Heartbeat Key.
    The detector answers true only when no call was rejected, and then either
    the resource key was reported absent and no deletion was asked for, or
    both keys were removed.  When the resource key alone was removed, the
    second deletion was rejected and the answer is false although the lock is
    gone. *)
Theorem forceReset_answer_and_deletions (s : W) :
  let res := run h (forceResetLockIfStale resource heartbeatKey) s in
  (removed (trace res) = [] \/
   removed (trace res) = [resource] \/
   removed (trace res) = [resource; heartbeatKey]) /\
  (outcome res = Returned true ->
   existsb failed (trace res) = false /\
   (leaseReported (trace res) = Some (-2) /\ deleted (trace res) = [] \/
    removed (trace res) = [resource; heartbeatKey])) /\
  (removed (trace res) = [resource] ->
   outcome res = Returned false /\ existsb failed (trace res) = true).
Proof.
  detector_cases h.
  all: subst.
  all: split; [auto | split; intros Hyp; try discriminate Hyp; auto].
Qed.

End DetectorAnswers.

Lemma forceReset_answer_and_deletions_witness :
  let res := run scripted (forceResetLockIfStale "compile-a" "compile-a:hb")
                 [Number (-1); Text None; Ok; Rejects "ECONNRESET"] in
  removed (trace res) = ["compile-a"] /\
  outcome res = Returned false /\ existsb failed (trace res) = true.
Proof.
  intros res. split; [reflexivity|].
  apply (proj2 (proj2 (@forceReset_answer_and_deletions _ scripted "compile-a" "compile-a:hb"
                         [Number (-1); Text None; Ok; Rejects "ECONNRESET"]))).
  reflexivity.
Defined.

(** ** Rejections of the existence check *)

Section ExistenceRejects.

Variable W : Type.
Variable h : forall X, Ev X -> W -> X * W.
Variable redisMetadataSuffix : string.

(** X4: [checkBinaryExistance] has no handler: it rejects exactly when its
    query is rejected, with the error of the query, and returns a boolean
    otherwise. *)
Theorem checkBinaryExistance_rejects_with_the_store (name : string) (s : W) :
  let res := run h (checkBinaryExistance redisMetadataSuffix name) s in
  let reply := fst (h (Store (ExistsAsync (name ++ redisMetadataSuffix)%string)) s) in
  (forall e, outcome res = Thrown e <-> reply = inl e) /\
  (forall b, outcome res = Returned b <-> exists n, reply = inr n /\ b = negb (n =? 0)).
Proof.
  unfold checkBinaryExistance; cbn.
  destruct (h (Store (ExistsAsync (name ++ redisMetadataSuffix)%string)) s) as [[e | n] s'];
    cbn.
  - split.
    + intros e'. split; intros [= ->]; reflexivity.
    + intros b. split; [discriminate | intros (n & Hn & _); discriminate].
  - split.
    + intros e. split; discriminate.
    + intros b. split.
      * intros [= <-]. now exists n.
      * intros (n' & [= <-] & ->). reflexivity.
Qed.

End ExistenceRejects.

(** ** More on the acquisition loop *)

Lemma attempts_app (a b : list (Obs Ev)) :
  attempts (a ++ b) = (attempts a + attempts b)%nat.
Proof. unfold attempts, calls. now rewrite map_app, filter_app, length_app. Qed.

Lemma delays_app (a b : list (Obs Ev)) :
  delays (a ++ b) = (delays a + delays b)%nat.
Proof. unfold delays, calls. now rewrite map_app, filter_app, length_app. Qed.

Lemma deleted_app (a b : list (Obs Ev)) :
  deleted (a ++ b) = deleted a ++ deleted b.
Proof. unfold deleted, calls. now rewrite map_app, flat_map_app. Qed.

Lemma confined_app (resource heartbeatKey : string) (a b : list (Obs Ev)) :
  forallb (confined resource heartbeatKey) (calls (a ++ b)) =
  forallb (confined resource heartbeatKey) (calls a) &&
  forallb (confined resource heartbeatKey) (calls b).
Proof. unfold calls. now rewrite map_app, forallb_app. Qed.

Section Pieces.

Variable W : Type.
Variable h : forall X, Ev X -> W -> X * W.
Variables resource heartbeatKey : string.

(** What one detector pass adds to a trace. *)
Lemma forceReset_piece (s : W) :
  let d := run h (forceResetLockIfStale resource heartbeatKey) s in
  forallb (confined resource heartbeatKey) (calls (trace d)) = true /\
  attempts (trace d) = 0%nat /\
  delays (trace d) = 0%nat /\
  forall acc, fold_left timerStep (trace d) acc = acc.
Proof.
  detector_cases h.
  all: rewrite ?String.eqb_refl, ?orb_true_r; cbn.
  all: repeat split.
Qed.

(** What the [try] block adds to a trace. *)
Lemma tryAcquire_piece (s : W) :
  let a := run h (tryAcquire resource heartbeatKey) s in
  forallb (confined resource heartbeatKey) (calls (trace a)) = true /\
  attempts (trace a) = 1%nat /\
  delays (trace a) = 0%nat /\
  detectorPasses (trace a) = 0%nat /\
  deleted (trace a) = [] /\
  forall e, outcome a = Thrown e -> forall acc, fold_left timerStep (trace a) acc = acc.
Proof.
  unfold tryAcquire; cbn.
  answer h. split_reply.
  2: answer h; answer h; split_reply.
  3: answer h; split_reply.
  4: answer h.
  all: rewrite ?String.eqb_refl; cbn.
  all: repeat split; try discriminate.
Qed.

End Pieces.

(** Split the measures of a trace along its pieces and evaluate them on the
    single calls. *)
Ltac split_measures :=
  rewrite ?confined_app, ?attempts_app, ?delays_app, ?detectorPasses_app,
    ?deleted_app, ?fold_left_app;
  repeat match goal with
    | |- context [attempts [?o]] =>
        let v := eval cbv in (attempts [o]) in change (attempts [o]) with v
    | |- context [delays [?o]] =>
        let v := eval cbv in (delays [o]) in change (delays [o]) with v
    | |- context [detectorPasses [?o]] =>
        let v := eval cbv in (detectorPasses [o]) in change (detectorPasses [o]) with v
    | |- context [deleted [?o]] =>
        let v := eval cbv in (deleted [o]) in change (deleted [o]) with v
    | |- context [forallb (confined ?r ?k) (calls [?o])] =>
        change (forallb (confined r k) (calls [o])) with true
    | |- context [fold_left timerStep [?o] ?acc] =>
        change (fold_left timerStep [o] acc) with acc
    end.

Section LoopFacts.

Variable W : Type.
Variable h : forall X, Ev X -> W -> X * W.
Variables resource heartbeatKey : string.
Variable start : Z.

#[local] Arguments forceResetLockIfStale : simpl never.
#[local] Arguments tryAcquire : simpl never.
#[local] Arguments whileTrue : simpl never.

(** Everything the later theorems need about a run of the loop, by one
    induction on the number of passes. *)
Lemma whileTrue_facts (fuel : nat) :
  forall (s : W) (acc : list Token),
    let res := run h (whileTrue fuel resource heartbeatKey start) s in
    forallb (confined resource heartbeatKey) (calls (trace res)) = true /\
    match outcome res with
    | Returned None =>
        attempts (trace res) = fuel /\ delays (trace res) = fuel /\
        fold_left timerStep (trace res) acc = acc
    | Returned (Some f) =>
        attempts (trace res) = (delays (trace res) + 1)%nat /\
        (attempts (trace res) <= fuel)%nat /\
        (f = noopRelease /\ fold_left timerStep (trace res) acc = acc /\
         (1 <= detectorPasses (trace res))%nat \/
         exists token lock,
           f = releaseFunction token lock heartbeatKey /\
           fold_left timerStep (trace res) acc = token :: acc)
    | Thrown _ => False
    end /\
    (forallb (early start) (trace res) = true ->
     detectorPasses (trace res) = 0%nat /\ deleted (trace res) = []).
Proof.
  induction fuel as [|n IH]; intros s acc.
  { cbn. repeat split. }
  cbv zeta. rewrite whileTrue_run.
  destruct (tryAcquire_piece h resource heartbeatKey s) as (Tc & Ta & Td & Tp & Tx & Tt).
  destruct (tryAcquire_run h resource heartbeatKey s)
    as [(e & He & _) | (lock & now & token & Htr & Ha)].
  2:{ rewrite (loopBody_acquired h _ _ start s Ha).
      unfold andThen; cbn [trace outcome final]. rewrite app_nil_r.
      split; [exact Tc|]. split.
      - rewrite Ta, Td. split; [reflexivity|]. split; [lia|].
        right. exists token, lock. split; [reflexivity|]. now rewrite Htr.
      - intros _. now split. }
  rewrite (loopBody_failed h _ _ start s He), onFailure_run.
  specialize (Tt e He).
  set (a := run h (tryAcquire resource heartbeatKey) s) in *.
  destruct (h (Store DateNow) (final a)) as [t s1].
  destruct (Z.leb_spec maxWaitMs (t - start)) as [Hlate | Hearly]; cbv zeta.
  - destruct (forceReset_piece h resource heartbeatKey s1) as (Dc & Da & Dd & Dt).
    pose proof (forceReset_one_query h resource heartbeatKey s1) as Dp.
    destruct (forceReset_never_throws h resource heartbeatKey s1) as [b Hb].
    set (d := run h (forceResetLockIfStale resource heartbeatKey) s1) in *.
    rewrite Hb. destruct b.
    + destruct (h (Store (Delay 200)) (final d)) as [u s2].
      unfold andThen; cbn [trace outcome final].
      specialize (IH s2 acc). cbv zeta in IH. destruct IH as (Rc & Ro & Re).
      set (rest := run h (whileTrue n resource heartbeatKey start) s2) in *.
      change (Observe (Store DateNow) t :: trace d ++ [Observe (Store (Delay 200)) u])
        with ([Observe (Store DateNow) t] ++ trace d ++ [Observe (Store (Delay 200)) u]).
      split; [| split].
      * split_measures. now rewrite Tc, Dc, Rc.
      * destruct (outcome rest) as [[f|]|e']; [| | contradiction].
        -- destruct Ro as (Ro1 & Ro2 & Ro3).
           split_measures. rewrite Ta, Td, Da, Dd, Dp, Tp.
           split; [lia|]. split; [lia|].
           rewrite !Tt, !Dt.
           destruct Ro3 as [(-> & Hf & Hp) | (token & lock & -> & Hf)].
           ++ left. split; [reflexivity|]. split; [exact Hf | lia].
           ++ right. exists token, lock. split; [reflexivity | exact Hf].
        -- destruct Ro as (Ro1 & Ro2 & Ro3).
           split_measures. rewrite Ta, Td, Da, Dd, !Tt, !Dt.
           split; [lia|]. split; [lia | exact Ro3].
      * intros Hall. exfalso.
        rewrite !forallb_app in Hall. cbn in Hall.
        apply andb_true_iff in Hall. destruct Hall as [Hall _].
        apply andb_true_iff in Hall. destruct Hall as [_ Hall].
        apply andb_true_iff in Hall. destruct Hall as [Hall _].
        apply andb_true_iff in Hall. destruct Hall as [Hall _].
        apply Z.ltb_lt in Hall. lia.
    + unfold andThen; cbn [trace outcome final]. rewrite app_nil_r.
      change (Observe (Store DateNow) t :: trace d)
        with ([Observe (Store DateNow) t] ++ trace d).
      split; [| split].
      * split_measures. now rewrite Tc, Dc.
      * split_measures. rewrite Ta, Td, Da, Dd, Dp, Tp, !Tt, !Dt.
        split; [lia|]. split; [lia|].
        left. split; [reflexivity|]. split; [reflexivity | lia].
      * intros Hall. exfalso.
        rewrite !forallb_app in Hall. cbn in Hall.
        apply andb_true_iff in Hall. destruct Hall as [_ Hall].
        apply andb_true_iff in Hall. destruct Hall as [Hall _].
        apply andb_true_iff in Hall. destruct Hall as [Hall _].
        apply Z.ltb_lt in Hall. lia.
  - destruct (h (Store (Delay 200)) s1) as [u s2].
    unfold andThen; cbn [trace outcome final].
    specialize (IH s2 acc). cbv zeta in IH. destruct IH as (Rc & Ro & Re).
    set (rest := run h (whileTrue n resource heartbeatKey start) s2) in *.
    change [Observe (Store DateNow) t; Observe (Store (Delay 200)) u]
      with ([Observe (Store DateNow) t] ++ [Observe (Store (Delay 200)) u]).
    split; [| split].
    + split_measures. now rewrite Tc, Rc.
    + destruct (outcome rest) as [[f|]|e']; [| | contradiction].
      * destruct Ro as (Ro1 & Ro2 & Ro3).
        split_measures. rewrite Ta, Td, Tp.
        split; [lia|]. split; [lia|].
        rewrite !Tt.
        destruct Ro3 as [(-> & Hf & Hp) | (token & lock & -> & Hf)].
        -- left. split; [reflexivity|]. split; [exact Hf | lia].
        -- right. exists token, lock. split; [reflexivity | exact Hf].
      * destruct Ro as (Ro1 & Ro2 & Ro3).
        split_measures. rewrite Ta, Td, !Tt.
        split; [lia|]. split; [lia | exact Ro3].
    + intros Hall.
      rewrite !forallb_app in Hall.
      apply andb_true_iff in Hall. destruct Hall as [_ Hall].
      destruct (Re Hall) as [Rp Rd].
      split_measures. rewrite Tp, Tx, Rp, Rd. now split.
Qed.

End LoopFacts.

Section AcquisitionMore.

Variable W : Type.
Variable h : forall X, Ev X -> W -> X * W.

#[local] Arguments whileTrue : simpl never.

(** X5: whatever the store replies, [getCompileLock name] only reads the
    clock, tries the lock on [compile-<name>] with the lock TTL, writes
    [compile-<name>:hb] and sets its expiry to twice the TTL, queries the
    lease of the one key and the value of the other, deletes these two keys,
    sleeps 200 ms and registers the heartbeat timer.  It never unlocks or
    extends a lock, not even one it obtained in a pass whose heartbeat write
    was then rejected, and it never clears a timer. *)
Theorem getCompileLock_calls_are_confined (fuel : nat) (name : string) (s : W) :
  let resource := ("compile-" ++ name)%string in
  let heartbeatKey := (resource ++ ":hb")%string in
  let res := run h (getCompileLock fuel name) s in
  forallb (confined resource heartbeatKey) (calls (trace res)) = true.
Proof.
  cbv zeta. rewrite getCompileLock_run. cbv zeta.
  destruct (h (Store DateNow) s) as [start s1]. cbn [trace].
  destruct (whileTrue_facts h ("compile-" ++ name) (("compile-" ++ name) ++ ":hb")
              start fuel s1 []) as (Hc & _ & _).
  change (Observe (Store DateNow) start :: ?tr) with ([Observe (Store DateNow) start] ++ tr).
  rewrite confined_app, Hc. reflexivity.
Qed.

(** X6: the loop sleeps exactly once, for 200 ms, between two attempts to
    take the lock: a call that has returned made one attempt more than it
    slept, and a call still looping after [fuel] passes made [fuel] attempts
    and slept [fuel] times. *)
Theorem one_sleep_between_attempts (fuel : nat) (name : string) (s : W) :
  let res := run h (getCompileLock fuel name) s in
  match outcome res with
  | Returned (Some _) =>
      attempts (trace res) = (delays (trace res) + 1)%nat /\
      (attempts (trace res) <= fuel)%nat
  | Returned None => attempts (trace res) = fuel /\ delays (trace res) = fuel
  | Thrown _ => False
  end.
Proof.
  cbv zeta. rewrite getCompileLock_run. cbv zeta.
  destruct (h (Store DateNow) s) as [start s1]. cbn [trace outcome].
  destruct (whileTrue_facts h ("compile-" ++ name) (("compile-" ++ name) ++ ":hb")
              start fuel s1 []) as (_ & Ho & _).
  change (Observe (Store DateNow) start :: ?tr) with ([Observe (Store DateNow) start] ++ tr).
  destruct (outcome _) as [[f|]|e]; [| | contradiction].
  - destruct Ho as (H1 & H2 & _). split_measures. lia.
  - destruct Ho as (H1 & H2 & _). split_measures. lia.
Qed.

Lemma releaseFunction_clears (token : Token) (lock : LockHandle) (heartbeatKey : string)
      (s : W) (acc : list Token) :
  let rel := run h (releaseFunction token lock heartbeatKey) s in
  outcome rel = Returned tt /\
  fold_left timerStep (trace rel) acc = remove Nat.eq_dec token acc.
Proof.
  unfold releaseFunction; cbn.
  answer h. answer h. split_reply; answer h; split_reply.
  all: repeat match goal with u : unit |- _ => destruct u end.
  all: split; reflexivity.
Qed.

(** X7: no timer is left behind.  While the call is looping no timer is
    registered; when it has returned at most one is, and once the function
    it returned has run, whichever it is, none remains. *)
Theorem release_leaves_no_timer (fuel : nat) (name : string) (s : W) :
  let res := run h (getCompileLock fuel name) s in
  match outcome res with
  | Returned (Some f) =>
      let rel := run h f (final res) in
      outcome rel = Returned tt /\
      (length (activeTimers (trace res)) <= 1)%nat /\
      activeTimers (trace res ++ trace rel) = []
  | Returned None => activeTimers (trace res) = []
  | Thrown _ => False
  end.
Proof.
  cbv zeta. rewrite getCompileLock_run. cbv zeta.
  destruct (h (Store DateNow) s) as [start s1]. cbn [trace outcome final].
  destruct (whileTrue_facts h ("compile-" ++ name) (("compile-" ++ name) ++ ":hb")
              start fuel s1 []) as (_ & Ho & _).
  change (Observe (Store DateNow) start :: ?tr) with ([Observe (Store DateNow) start] ++ tr).
  unfold activeTimers.
  destruct (outcome _) as [[f|]|e]; [| | contradiction].
  - destruct Ho as (_ & _ & [(-> & Hf & _) | (token & lock & -> & Hf)]).
    + cbn [run noopRelease ret Monad_Prog trace outcome]. rewrite app_nil_r.
      split_measures. rewrite Hf. repeat split. cbn. lia.
    + destruct (releaseFunction_clears token lock (("compile-" ++ name) ++ ":hb")
                  (final (run h (whileTrue fuel ("compile-" ++ name)
                                   (("compile-" ++ name) ++ ":hb") start) s1))
                  [token]) as (Hrel & Hclear).
      split; [exact Hrel|].
      split_measures. rewrite Hf. split; [cbn; lia|].
      rewrite Hclear. cbn. now destruct (Nat.eq_dec token token).
  - destruct Ho as (_ & _ & Hf). split_measures. exact Hf.
Qed.

(** X8: before the maximum wait nothing is given up and nothing is touched.
    If every clock reading of the call is less than 15000 ms past the first,
    the detector is not run, no deletion is asked for, and the function
    returned, if any, is not the no-op. *)
Theorem no_reclaim_before_max_wait (fuel : nat) (name : string) (s : W) (start : Z) :
  let res := run h (getCompileLock fuel name) s in
  clockRead (trace res) = Some start ->
  forallb (early start) (trace res) = true ->
  detectorPasses (trace res) = 0%nat /\
  deleted (trace res) = [] /\
  outcome res <> Returned (Some noopRelease).
Proof.
  cbv zeta. rewrite getCompileLock_run. cbv zeta.
  destruct (h (Store DateNow) s) as [start' s1]. cbn [trace outcome final].
  intros [= ->] Hall.
  destruct (whileTrue_facts h ("compile-" ++ name) (("compile-" ++ name) ++ ":hb")
              start fuel s1 []) as (_ & Ho & He).
  change (Observe (Store DateNow) start :: ?tr) with ([Observe (Store DateNow) start] ++ tr)
    in *.
  rewrite forallb_app in Hall. apply andb_true_iff in Hall. destruct Hall as [_ Hall].
  destruct (He Hall) as [Hp Hd].
  split_measures. rewrite Hp, Hd. split; [reflexivity|]. split; [reflexivity|].
  intros Hnoop. rewrite Hnoop in Ho.
  destruct Ho as (_ & _ & [(_ & _ & Hone) | (token & lock & Hf & _)]).
  - lia.
  - unfold noopRelease, releaseFunction in Hf. cbn in Hf. discriminate Hf.
Qed.

End AcquisitionMore.

Lemma no_reclaim_before_max_wait_witness :
  let res := run scripted (getCompileLock 2 "a")
                 [Number 1000; Rejects "held"; Number 1200; Ok;
                  Rejects "held"; Number 15999; Ok] in
  detectorPasses (trace res) = 0%nat /\
  deleted (trace res) = [] /\
  outcome res <> Returned (Some noopRelease).
Proof.
  apply (@no_reclaim_before_max_wait _ scripted 2 "a"
           [Number 1000; Rejects "held"; Number 1200; Ok;
            Rejects "held"; Number 15999; Ok] 1000);
    reflexivity.
Defined.
